(** * Access control entries of timesketch: [timesketch/apps/sketch/models.py]

    A shallow embedding of the access-control functions of the sketch
    application ([ace_is_public], [ace_make_public], [ace_make_private],
    [ace_can_read], [ace_can_write] and [Sketch.get_collaborators]) together
    with the part of the Django object-relational layer they call
    ([QuerySet.get], [create], [save], [delete], attribute reads on a model
    instance), followed by the properties of the access evaluator. *)

From Stdlib Require Import List Bool Arith PeanoNat Lia Ascii String.
Import ListNotations.

(** ** Exceptions and results *)

(** The exceptions that the modelled code can meet.  Django's
    [Model.DoesNotExist] derives from [ObjectDoesNotExist], which is the class
    every handler of the module names; [MultipleObjectsReturned] and Python's
    [AttributeError] do not derive from it. *)
Inductive exn : Type :=
| ObjectDoesNotExist
| MultipleObjectsReturned
| AttributeError.

(** The outcome of a call: a returned value or a raised exception. *)
Inductive result (A : Type) : Type :=
| Return (a : A)
| Raise (e : exn).

Arguments Return {A} a.
Arguments Raise {A} e.

Definition bind {A B : Type} (m : result A) (k : A -> result B) : result B :=
  match m with
  | Return a => k a
  | Raise e => Raise e
  end.

Notation "x <- m ;; k" := (bind m (fun x => k))
  (at level 61, m at next level, right associativity).

(** ** Data model *)

(** A user is identified by the primary key of its row. *)
Definition User : Type := nat.

(** The value handed in as [user]: a user, or [None]. *)
Definition actor : Type := option User.

Definition actor_eqb (a b : actor) : bool :=
  match a, b with
  | Some x, Some y => x =? y
  | None, None => true
  | _, _ => false
  end.

(** [class AccessControlEntry(models.Model)]: the primary key [pk] that the
    database gives every row, the nullable foreign key [user] and the three
    permission flags.  The generic foreign key ([content_type], [object_id])
    is what attaches a row to its object and is represented by the row being
    in that object's [acl]; the two timestamps are never read. *)
Record AccessControlEntry : Type := ACE {
  pk : nat;
  user : actor;
  permission_read : bool;
  permission_write : bool;
  permission_delete : bool
}.

(** What the access-control functions read of their [object] argument, a
    [Sketch] or a [Timeline]: its [owner] (a foreign key that is not
    nullable) and, through the generic relation [acl], the rows of
    [AccessControlEntry] attached to it. *)
Record Resource : Type := {
  owner : User;
  acl : list AccessControlEntry
}.

Definition with_acl (object : Resource) (rows : list AccessControlEntry)
  : Resource :=
  {| owner := owner object; acl := rows |}.

(** ** Python values and attribute access *)

Inductive pyval : Type :=
| PyNone
| PyBool (b : bool)
| PyInt (n : nat)
| PyUser (u : User)
| PyACE (a : AccessControlEntry).

(** Truth value of an object in a condition: [None], [False] and [0] are
    false, model instances are true. *)
Definition truthy (v : pyval) : bool :=
  match v with
  | PyNone => false
  | PyBool b => b
  | PyInt n => negb (n =? 0)
  | PyUser _ => true
  | PyACE _ => true
  end.

(** [==].  Two model instances are equal when they are of the same model and
    have the same primary key. *)
Definition py_eqb (v w : pyval) : bool :=
  match v, w with
  | PyNone, PyNone => true
  | PyBool a, PyBool b => Bool.eqb a b
  | PyInt a, PyInt b => a =? b
  | PyUser a, PyUser b => a =? b
  | PyACE a, PyACE b => pk a =? pk b
  | _, _ => false
  end.

Definition of_actor (a : actor) : pyval :=
  match a with
  | Some u => PyUser u
  | None => PyNone
  end.

(** [ace.<name>]: reading an attribute of an [AccessControlEntry] instance.
    The instance has the attributes its class declares, here those of the
    fields the record keeps; a name the class does not declare raises
    [AttributeError]. *)
Definition ace_getattr (ace : AccessControlEntry) (name : string)
  : result pyval :=
  if (name =? "pk")%string then Return (PyInt (pk ace))
  else if (name =? "id")%string then Return (PyInt (pk ace))
  else if (name =? "user")%string then Return (of_actor (user ace))
  else if (name =? "permission_read")%string
       then Return (PyBool (permission_read ace))
  else if (name =? "permission_write")%string
       then Return (PyBool (permission_write ace))
  else if (name =? "permission_delete")%string
       then Return (PyBool (permission_delete ace))
  else Raise AttributeError.

(** [ace.permission_read = value] *)
Definition set_permission_read (ace : AccessControlEntry) (value : bool)
  : AccessControlEntry :=
  {| pk := pk ace;
     user := user ace;
     permission_read := value;
     permission_write := permission_write ace;
     permission_delete := permission_delete ace |}.

(** ** The object-relational layer *)

(** A keyword argument of a query, [field=value], as the test it puts on a
    row.  [user=None] selects the rows whose [user] is null. *)
Definition lookup : Type := AccessControlEntry -> bool.

Definition by_user (u : actor) : lookup :=
  fun a => actor_eqb (user a) u.

Definition by_permission_read (b : bool) : lookup :=
  fun a => Bool.eqb (permission_read a) b.

Definition by_permission_write (b : bool) : lookup :=
  fun a => Bool.eqb (permission_write a) b.

(** The keyword arguments of one query are taken together. *)
Definition matches (kwargs : list lookup) (a : AccessControlEntry) : bool :=
  forallb (fun q => q a) kwargs.

(** [object.acl.get(...)]: the one row that matches its keyword arguments; [DoesNotExist]
    when none does, [MultipleObjectsReturned] when several do. *)
Definition acl_get (kwargs : list lookup) (rows : list AccessControlEntry)
  : result AccessControlEntry :=
  match filter (matches kwargs) rows with
  | [] => Raise ObjectDoesNotExist
  | [ace] => Return ace
  | _ :: _ :: _ => Raise MultipleObjectsReturned
  end.

(** The key of a new row: one that no row of the object has. *)
Definition fresh_pk (rows : list AccessControlEntry) : nat :=
  S (list_max (map pk rows)).

(** [object.acl.create(user=u, permission_read=r)]: a new row attached to
    the object; the flags that are not given take their default, [False]. *)
Definition acl_create (u : actor) (r : bool) (object : Resource) : Resource :=
  with_acl object (acl object ++ [ACE (fresh_pk (acl object)) u r false false]).

(** [ace.save()]: the row with the key of [ace] takes the values of [ace]. *)
Definition ace_save (ace : AccessControlEntry) (object : Resource) : Resource :=
  with_acl object
    (map (fun a => if pk a =? pk ace then ace else a) (acl object)).

(** [ace.delete()]: the row with the key of [ace] is removed. *)
Definition ace_delete (ace : AccessControlEntry) (object : Resource)
  : Resource :=
  with_acl object (filter (fun a => negb (pk a =? pk ace)) (acl object)).

(** ** The access-control functions *)

(** [def ace_is_public(object)] *)
Definition ace_is_public (object : Resource) : result bool :=
  match acl_get [by_user None; by_permission_read true] (acl object) with
  | Return _ => Return true
  | Raise ObjectDoesNotExist => Return false
  | Raise e => Raise e
  end.

(** [def ace_can_write(object, user)] *)
Definition ace_can_write (object : Resource) (user : actor) : result bool :=
  if actor_eqb (Some (owner object)) user then Return true
  else
    match acl_get [by_user user; by_permission_write true] (acl object) with
    | Return _ => Return true
    | Raise ObjectDoesNotExist => Return false
    | Raise e => Raise e
    end.

(** [def ace_can_read(object, user)] *)
Definition ace_can_read (object : Resource) (user : actor) : result bool :=
  if actor_eqb (Some (owner object)) user then Return true
  else
    public <- ace_is_public object ;;
    if public then Return true
    else
      match acl_get [by_user user] (acl object) with
      | Raise ObjectDoesNotExist => Return false
      | Raise e => Raise e
      | Return ace =>
          flag <- ace_getattr ace "permission_read" ;;
          if truthy flag then Return true else Return false
      end.

(** [def ace_make_public(object, user)].  The second component is the object
    with its rows as the call leaves them, also when it raises. *)
Definition ace_make_public (object : Resource) (user : actor)
  : result unit * Resource :=
  match ace_can_write object user with
  | Raise e => (Raise e, object)
  | Return false => (Return tt, object)
  | Return true =>
      match acl_get [by_user None] (acl object) with
      | Return ace =>
          match ace_getattr ace "read" with
          | Raise e => (Raise e, object)
          | Return v =>
              if negb (truthy v)
              then (Return tt, ace_save (set_permission_read ace true) object)
              else (Return tt, object)
          end
      | Raise ObjectDoesNotExist => (Return tt, acl_create None true object)
      | Raise e => (Raise e, object)
      end
  end.

(** [def ace_make_private(object, user)] *)
Definition ace_make_private (object : Resource) (user : actor)
  : result unit * Resource :=
  match ace_can_write object user with
  | Raise e => (Raise e, object)
  | Return false => (Return tt, object)
  | Return true =>
      match acl_get [by_user None] (acl object) with
      | Return ace => (Return tt, ace_delete ace object)
      | Raise ObjectDoesNotExist => (Return tt, object)
      | Raise e => (Raise e, object)
      end
  end.

(** ** Methods of [Sketch] *)

(** A Python [set], as the list of its elements in the order they were
    added; [add] puts in an element that is not equal to one already there. *)
Definition set_add (v : pyval) (s : list pyval) : list pyval :=
  if existsb (py_eqb v) s then s else s ++ [v].

Module Sketch.

Definition is_public (self : Resource) : result bool :=
  ace_is_public self.

Definition make_public (self : Resource) (user : actor)
  : result unit * Resource :=
  ace_make_public self user.

Definition make_private (self : Resource) (user : actor)
  : result unit * Resource :=
  ace_make_private self user.

Definition can_read (self : Resource) (user : actor) : result bool :=
  ace_can_read self user.

(** The loop [for ace in self.acl.all()] of [get_collaborators], from the
    rows still to visit and the set built so far. *)
Fixpoint collect (self : Resource) (rows : list AccessControlEntry)
    (collaborators_set : list pyval) : result (list pyval) :=
  match rows with
  | [] => Return collaborators_set
  | ace :: rest =>
      u <- ace_getattr ace "user" ;;
      if truthy u && negb (py_eqb u (PyUser (owner self)))
      then collect self rest (set_add (PyACE ace) collaborators_set)
      else collect self rest collaborators_set
  end.

(** [def get_collaborators(self)] *)
Definition get_collaborators (self : Resource) : result (list pyval) :=
  collect self (acl self) [].

End Sketch.

(** ** Sequences of calls *)

(** One call of the access evaluator on an object. *)
Inductive op : Type :=
| IsPublic
| CanRead (user : actor)
| CanWrite (user : actor)
| MakePublic (user : actor)
| MakePrivate (user : actor).

(** What the call gives back, and the object as the call leaves it. *)
Definition exec (c : op) (object : Resource) : result pyval * Resource :=
  match c with
  | IsPublic => (b <- ace_is_public object ;; Return (PyBool b), object)
  | CanRead u => (b <- ace_can_read object u ;; Return (PyBool b), object)
  | CanWrite u => (b <- ace_can_write object u ;; Return (PyBool b), object)
  | MakePublic u =>
      let (r, object') := ace_make_public object u in
      (_ <- r ;; Return PyNone, object')
  | MakePrivate u =>
      let (r, object') := ace_make_private object u in
      (_ <- r ;; Return PyNone, object')
  end.

(** The calls of [cs] one after the other, each on the object as the one
    before left it. *)
Definition run (cs : list op) (object : Resource) : Resource :=
  fold_left (fun o c => snd (exec c o)) cs object.

(** ** The uniqueness invariant *)

(** At most one entry for each actor ([None] included) among the rows of
    the object. *)
Definition unique_acl (object : Resource) : bool :=
  forallb
    (fun a => List.length (filter (by_user (user a)) (acl object)) <=? 1)
    (acl object).

(** ** The evaluator as the specification words it *)

Module Spec.

(** [find(resource, actor)]: the entry of the actor on the resource, if
    there is one. *)
Definition find (r : Resource) (a : actor) : option AccessControlEntry :=
  List.find (by_user a) (acl r).

Definition is_public (r : Resource) : bool :=
  match find r None with
  | Some e => permission_read e
  | None => false
  end.

Definition can_read (r : Resource) (a : actor) : bool :=
  if actor_eqb a (Some (owner r)) then true
  else if is_public r then true
  else match find r a with
       | None => false
       | Some e => permission_read e
       end.

Definition can_write (r : Resource) (a : actor) : bool :=
  if actor_eqb a (Some (owner r)) then true
  else match find r a with
       | None => false
       | Some e => permission_write e
       end.

(** [get_collaborators(resource)]: the distinct actors of the entries
    whose actor is neither the public sentinel nor the owner. *)
Fixpoint collaborators_of (own : User) (rows : list AccessControlEntry)
  : list pyval :=
  match rows with
  | [] => []
  | e :: rest =>
      match user e with
      | Some u =>
          if u =? own then collaborators_of own rest
          else set_add (PyUser u) (collaborators_of own rest)
      | None => collaborators_of own rest
      end
  end.

Definition get_collaborators (r : Resource) : list pyval :=
  collaborators_of (owner r) (acl r).

End Spec.

(** ** Sample objects *)

(** A sketch of user 1 with no entry. *)
Definition private_sketch : Resource := {| owner := 1; acl := [] |}.

(** A sketch of user 1 whose public entry has its read flag off. *)
Definition unpublished_sketch : Resource :=
  {| owner := 1; acl := [ACE 1 None false false false] |}.

(** A sketch of user 1 whose public entry has its read flag on. *)
Definition published_sketch : Resource :=
  {| owner := 1; acl := [ACE 1 None true false false] |}.

(** A sketch of user 1 shared with user 2 (read and write) and user 3
    (an entry with every flag off). *)
Definition shared_sketch : Resource :=
  {| owner := 1;
     acl := [ACE 1 (Some 2) true true false; ACE 2 (Some 3) false false false] |}.

(** A sketch with two public entries: the invariant does not hold. *)
Definition corrupt_sketch : Resource :=
  {| owner := 1;
     acl := [ACE 1 None false false false; ACE 2 None false false false] |}.

(** A sketch of user 1 that was made public while user 3 has an entry with
    every flag off. *)
Definition published_shared_sketch : Resource :=
  {| owner := 1;
     acl := [ACE 1 (Some 3) false false false; ACE 2 None true false false] |}.

(** ** Kinds of values in a set *)

Definition is_user (v : pyval) : bool :=
  match v with
  | PyUser _ => true
  | _ => false
  end.

Definition is_entry (v : pyval) : bool :=
  match v with
  | PyACE _ => true
  | _ => false
  end.

(** ** The courses of the two mutations *)

(** The ways a call of [ace_make_public] can go. *)
Inductive make_public_outcome (object : Resource) (u : actor)
  : result unit * Resource -> Prop :=
| public_refused :
    ace_can_write object u = Return false ->
    make_public_outcome object u (Return tt, object)
| public_check_raised e :
    ace_can_write object u = Raise e ->
    make_public_outcome object u (Raise e, object)
| public_created :
    ace_can_write object u = Return true ->
    acl_get [by_user None] (acl object) = Raise ObjectDoesNotExist ->
    make_public_outcome object u (Return tt, acl_create None true object)
| public_found ace :
    ace_can_write object u = Return true ->
    acl_get [by_user None] (acl object) = Return ace ->
    make_public_outcome object u (Raise AttributeError, object)
| public_several :
    ace_can_write object u = Return true ->
    acl_get [by_user None] (acl object) = Raise MultipleObjectsReturned ->
    make_public_outcome object u (Raise MultipleObjectsReturned, object).

(** The ways a call of [ace_make_private] can go. *)
Inductive make_private_outcome (object : Resource) (u : actor)
  : result unit * Resource -> Prop :=
| private_refused :
    ace_can_write object u = Return false ->
    make_private_outcome object u (Return tt, object)
| private_check_raised e :
    ace_can_write object u = Raise e ->
    make_private_outcome object u (Raise e, object)
| private_absent :
    ace_can_write object u = Return true ->
    acl_get [by_user None] (acl object) = Raise ObjectDoesNotExist ->
    make_private_outcome object u (Return tt, object)
| private_deleted ace :
    ace_can_write object u = Return true ->
    acl_get [by_user None] (acl object) = Return ace ->
    make_private_outcome object u (Return tt, ace_delete ace object)
| private_several :
    ace_can_write object u = Return true ->
    acl_get [by_user None] (acl object) = Raise MultipleObjectsReturned ->
    make_private_outcome object u (Raise MultipleObjectsReturned, object).

(** ** Primary keys *)

(** No number occurs twice. *)
Fixpoint distinct (l : list nat) : bool :=
  match l with
  | [] => true
  | x :: rest => negb (existsb (Nat.eqb x) rest) && distinct rest
  end.

(** The rows of the object have different primary keys, as rows of one
    table have. *)
Definition distinct_pks (object : Resource) : bool :=
  distinct (map pk (acl object)).

(** ** How one call can leave the rows *)

(** As they were, with a public entry created where there was none, or
    with the one public entry deleted. *)
Inductive row_change (object : Resource) : Resource -> Prop :=
| rows_kept : row_change object object
| row_created :
    filter (by_user None) (acl object) = [] ->
    row_change object (acl_create None true object)
| row_deleted ace :
    filter (by_user None) (acl object) = [ace] ->
    row_change object (ace_delete ace object).

(** The test of the loop of [get_collaborators]: the entry has a user and
    that user is not the owner. *)
Definition collaborator_entry (own : User) (e : AccessControlEntry) : bool :=
  match user e with
  | Some x => negb (x =? own)
  | None => false
  end.

(** ** [SketchTimeline.generate_color] *)

Module SketchTimeline.

(** [colors = ['ECEEE1', 'A8DACF', 'F0D697', 'D8D692', 'F2B7DC', '9798DE']] *)
Definition colors : list string :=
  ["ECEEE1"; "A8DACF"; "F0D697"; "D8D692"; "F2B7DC"; "9798DE"]%string.

(** [random.choice(seq)] is [seq[i]] for the index [i] it draws, which is
    below [len(seq)]; [draw] stands for that index. *)
Definition choice {A : Type} (draw : nat) (seq : list A) : option A :=
  nth_error seq draw.

(** [def generate_color()] *)
Definition generate_color (draw : nat) : option string :=
  choice draw colors.

(** [color = models.CharField(max_length=6, default="FFFFFF")] *)
Definition color_max_length : nat := 6.

Definition color_default : string := "FFFFFF"%string.

End SketchTimeline.

(** A digit of a number written in base sixteen with capital letters. *)
Definition is_hex_digit (c : ascii) : bool :=
  let n := nat_of_ascii c in
  ((48 <=? n) && (n <=? 57)) || ((65 <=? n) && (n <=? 70)).

Fixpoint string_forall (p : ascii -> bool) (s : string) : bool :=
  match s with
  | EmptyString => true
  | String c rest => p c && string_forall p rest
  end.

(** * Properties *)

(** ** Equality of actors and the lookups *)

Lemma actor_eqb_eq (a b : actor) : actor_eqb a b = true <-> a = b.
Proof.
  destruct a as [x|], b as [y|]; simpl; split; intro H;
    try discriminate; try reflexivity.
  - apply Nat.eqb_eq in H. now subst.
  - injection H as ->. apply Nat.eqb_refl.
Qed.

Lemma actor_eqb_neq (a b : actor) : actor_eqb a b = false <-> a <> b.
Proof.
  split.
  - intros H E. apply actor_eqb_eq in E. congruence.
  - intro N. destruct (actor_eqb a b) eqn:E; [|reflexivity].
    apply actor_eqb_eq in E. contradiction.
Qed.

Lemma actor_eqb_refl (a : actor) : actor_eqb a a = true.
Proof. now apply actor_eqb_eq. Qed.

Lemma actor_eqb_sym (a b : actor) : actor_eqb a b = actor_eqb b a.
Proof.
  destruct a, b; simpl; auto using Nat.eqb_sym.
Qed.

Lemma matches_one (p : lookup) (a : AccessControlEntry) :
  matches [p] a = p a.
Proof. unfold matches. simpl. apply andb_true_r. Qed.

Lemma matches_two (p q : lookup) (a : AccessControlEntry) :
  matches [p; q] a = p a && q a.
Proof. unfold matches. simpl. now rewrite andb_true_r. Qed.

Section Filters.

Context {A : Type}.
Variables p q : A -> bool.

Lemma filter_conj (l : list A) :
  filter (fun x => p x && q x) l = filter q (filter p l).
Proof.
  induction l as [|x l IH]; simpl; [reflexivity|].
  destruct (p x); simpl; [|exact IH].
  destruct (q x); now rewrite IH.
Qed.

(** A test that at most one element passes selects what [find] finds. *)
Lemma filter_unique_find (l : list A) :
  List.length (filter p l) <= 1 ->
  filter p l = match find p l with Some a => [a] | None => [] end.
Proof.
  induction l as [|x l IH]; simpl; [reflexivity|].
  destruct (p x) eqn:E; simpl; intro H.
  - destruct (filter p l); [reflexivity | simpl in H; lia].
  - now apply IH.
Qed.

End Filters.

(** ** What the invariant says of the lookups *)

Lemma unique_acl_lookup (object : Resource) :
  unique_acl object = true <->
  forall u : actor, List.length (filter (by_user u) (acl object)) <= 1.
Proof.
  unfold unique_acl. rewrite forallb_forall. split.
  - intros H u.
    destruct (filter (by_user u) (acl object)) as [|a rest] eqn:E;
      [simpl; lia|].
    assert (Ha : In a (filter (by_user u) (acl object)))
      by (rewrite E; now left).
    apply filter_In in Ha. destruct Ha as [Hin Hu].
    unfold by_user in Hu. apply actor_eqb_eq in Hu.
    specialize (H a Hin). apply Nat.leb_le in H.
    rewrite Hu, E in H. exact H.
  - intros H a _. apply Nat.leb_le. apply H.
Qed.

(** The invariant is that no actor occurs twice among the rows. *)
Lemma unique_acl_NoDup (object : Resource) :
  unique_acl object = true <-> NoDup (map user (acl object)).
Proof.
  rewrite unique_acl_lookup. destruct object as [own rows]. simpl.
  induction rows as [|a rows IH]; simpl.
  - split; [constructor | intros; lia].
  - split.
    + intro H. constructor.
      * intro Hin. apply in_map_iff in Hin. destruct Hin as [b [Hb Hin]].
        specialize (H (user a)). unfold by_user at 1 in H.
        rewrite actor_eqb_refl in H. simpl in H.
        assert (Hf : In b (filter (by_user (user a)) rows)).
        { apply filter_In. split; [exact Hin|].
          unfold by_user. now apply actor_eqb_eq. }
        destruct (filter (by_user (user a)) rows); [contradiction|].
        simpl in H. lia.
      * apply IH. intro u. specialize (H u).
        destruct (by_user u a); simpl in H; lia.
    + intros H u. inversion H as [|x l Hnin Hnd]; subst.
      destruct (by_user u a) eqn:E; simpl.
      * unfold by_user in E. apply actor_eqb_eq in E.
        assert (Hf : filter (by_user u) rows = []).
        { destruct (filter (by_user u) rows) as [|b rest] eqn:F;
            [reflexivity|].
          assert (Hb : In b (filter (by_user u) rows))
            by (rewrite F; now left).
          apply filter_In in Hb. destruct Hb as [Hin Hu].
          unfold by_user in Hu. apply actor_eqb_eq in Hu.
          exfalso. apply Hnin. apply in_map_iff. exists b. split; congruence. }
        rewrite Hf. simpl. lia.
      * now apply IH.
Qed.

Lemma find_by_user_some (object : Resource) (u : actor)
    (a : AccessControlEntry) :
  Spec.find object u = Some a -> In a (acl object) /\ user a = u.
Proof.
  intro H. apply find_some in H. destruct H as [Hin Hu].
  split; [exact Hin|]. now apply actor_eqb_eq.
Qed.

Lemma find_by_user_none (object : Resource) (u : actor) :
  Spec.find object u = None ->
  forall a, In a (acl object) -> user a <> u.
Proof.
  intros H a Hin. apply actor_eqb_neq.
  exact (find_none _ _ H a Hin).
Qed.

(** The owner reads and writes whatever the rows are. *)
Lemma owner_can_read (object : Resource) :
  ace_can_read object (Some (owner object)) = Return true.
Proof. unfold ace_can_read. now rewrite actor_eqb_refl. Qed.

Lemma owner_can_write (object : Resource) :
  ace_can_write object (Some (owner object)) = Return true.
Proof. unfold ace_can_write. now rewrite actor_eqb_refl. Qed.

(** A public object is readable by every actor, whatever the other rows
    are. *)
Lemma public_can_read (object : Resource) (u : actor) :
  ace_is_public object = Return true ->
  ace_can_read object u = Return true.
Proof.
  intro H. unfold ace_can_read.
  destruct (actor_eqb (Some (owner object)) u); [reflexivity|].
  now rewrite H.
Qed.

(** Without the invariant a lookup can raise: on the sketch with two
    public entries, neither readable, [ace_is_public] returns [False] and the
    lookup of [ace_can_read] for [None] meets both entries. *)
Lemma lookup_on_corrupt_rows :
  unique_acl corrupt_sketch = false
  /\ ace_is_public corrupt_sketch = Return false
  /\ ace_can_read corrupt_sketch None = Raise MultipleObjectsReturned.
Proof. repeat split; reflexivity. Qed.

(** ** The queries on an object that satisfies the invariant *)

Section WellFormed.

Variable object : Resource.
Hypothesis unique : unique_acl object = true.

(** Lookups by actor are unique or empty. *)
Lemma one_per_actor (u : actor) :
  List.length (filter (by_user u) (acl object)) <= 1.
Proof. now apply unique_acl_lookup. Qed.

(** A lookup by actor gives the entry of the actor or [DoesNotExist],
    never [MultipleObjectsReturned]. *)
Lemma acl_get_by_user (u : actor) :
  acl_get [by_user u] (acl object) =
  match Spec.find object u with
  | Some a => Return a
  | None => Raise ObjectDoesNotExist
  end.
Proof.
  unfold acl_get, Spec.find.
  rewrite (filter_ext _ _ (matches_one (by_user u))).
  rewrite filter_unique_find by apply one_per_actor.
  now destruct (find (by_user u) (acl object)).
Qed.

(** With a second keyword argument the entry of the actor has to pass
    its test as well. *)
Lemma acl_get_by_user_and (u : actor) (q : lookup) :
  acl_get [by_user u; q] (acl object) =
  match Spec.find object u with
  | Some a => if q a then Return a else Raise ObjectDoesNotExist
  | None => Raise ObjectDoesNotExist
  end.
Proof.
  unfold acl_get, Spec.find.
  rewrite (filter_ext _ _ (matches_two (by_user u) q)).
  rewrite filter_conj.
  rewrite (filter_unique_find (by_user u)) by apply one_per_actor.
  destruct (find (by_user u) (acl object)) as [a|]; simpl; [|reflexivity].
  now destruct (q a).
Qed.

(** The entry that [find] gives is the only entry of the actor. *)
Lemma find_by_user_unique (u : actor) (a : AccessControlEntry) :
  In a (acl object) -> user a = u -> Spec.find object u = Some a.
Proof.
  intros Hin Hu.
  assert (Hf : In a (filter (by_user u) (acl object))).
  { apply filter_In. split; [exact Hin|].
    unfold by_user. now apply actor_eqb_eq. }
  rewrite filter_unique_find in Hf by apply one_per_actor.
  unfold Spec.find.
  destruct (find (by_user u) (acl object)) as [b|]; simpl in Hf.
  - destruct Hf as [->|[]]. reflexivity.
  - contradiction.
Qed.

(** The three queries return what the specification's wording gives. *)
Lemma ace_is_public_refines :
  ace_is_public object = Return (Spec.is_public object).
Proof.
  unfold ace_is_public, Spec.is_public.
  rewrite acl_get_by_user_and.
  destruct (Spec.find object None) as [e|]; [|reflexivity].
  unfold by_permission_read. now destruct (permission_read e).
Qed.

Lemma ace_can_write_refines (u : actor) :
  ace_can_write object u = Return (Spec.can_write object u).
Proof.
  unfold ace_can_write, Spec.can_write.
  rewrite (actor_eqb_sym u).
  destruct (actor_eqb (Some (owner object)) u); [reflexivity|].
  rewrite acl_get_by_user_and.
  destruct (Spec.find object u) as [e|]; [|reflexivity].
  unfold by_permission_write. now destruct (permission_write e).
Qed.

Lemma ace_can_read_refines (u : actor) :
  ace_can_read object u = Return (Spec.can_read object u).
Proof.
  unfold ace_can_read, Spec.can_read.
  rewrite (actor_eqb_sym u).
  destruct (actor_eqb (Some (owner object)) u); [reflexivity|].
  rewrite ace_is_public_refines. simpl.
  destruct (Spec.is_public object); [reflexivity|].
  rewrite acl_get_by_user.
  destruct (Spec.find object u) as [e|]; [|reflexivity].
  simpl. now destruct (permission_read e).
Qed.

(** An actor who is not the owner and has no entry with the read flag on
    cannot read an object that is not public. *)
Lemma no_grant_no_read (u : actor) :
  Some (owner object) <> u ->
  ace_is_public object = Return false ->
  (forall e, In e (acl object) -> user e = u -> permission_read e = false) ->
  ace_can_read object u = Return false.
Proof.
  intros Hown Hpub Hno.
  unfold ace_can_read.
  apply actor_eqb_neq in Hown. rewrite Hown, Hpub. simpl.
  rewrite acl_get_by_user.
  destruct (Spec.find object u) as [e|] eqn:F; [|reflexivity].
  apply find_by_user_some in F. destruct F as [Hin Hu].
  simpl. now rewrite (Hno e Hin Hu).
Qed.

End WellFormed.

(** C6.  On an object that satisfies the uniqueness invariant,
    [ace_is_public] returns [True] exactly when a public entry (one whose
    user is [None]) with [permission_read] on exists, and returns [False]
    exactly when none does; in particular it returns [False] when the object
    has no public entry and when its public entry has [permission_read]
    off. *)
Theorem is_public_iff_public_read_entry (object : Resource) :
  unique_acl object = true ->
  (ace_is_public object = Return true <->
   exists e, In e (acl object) /\ user e = None /\ permission_read e = true)
  /\ (ace_is_public object = Return false <->
      ~ exists e, In e (acl object) /\ user e = None
                  /\ permission_read e = true)
  /\ ((forall e, In e (acl object) -> user e <> None) ->
      ace_is_public object = Return false)
  /\ (forall e, In e (acl object) -> user e = None ->
      permission_read e = false -> ace_is_public object = Return false).
Proof.
  intro H. rewrite ace_is_public_refines by exact H.
  assert (Hiff : Spec.is_public object = true <->
                 exists e, In e (acl object) /\ user e = None
                           /\ permission_read e = true).
  { unfold Spec.is_public. split.
    - destruct (Spec.find object None) as [e|] eqn:F; [|discriminate].
      intro R. apply find_by_user_some in F. exists e. tauto.
    - intros [e [Hin [Hu R]]].
      now rewrite (find_by_user_unique object H _ e Hin Hu). }
  repeat split.
  - intro E. apply Hiff. congruence.
  - intro E. apply Hiff in E. now rewrite E.
  - intros E X. apply Hiff in X. congruence.
  - intro N. destruct (Spec.is_public object) eqn:E; [|reflexivity].
    exfalso. apply N. now apply Hiff.
  - intro N. unfold Spec.is_public.
    destruct (Spec.find object None) as [e|] eqn:F; [|reflexivity].
    apply find_by_user_some in F. destruct F as [Hin Hu].
    now destruct (N e Hin).
  - intros e Hin Hu R. unfold Spec.is_public.
    now rewrite (find_by_user_unique object H _ e Hin Hu), R.
Qed.

Lemma is_public_iff_public_read_entry_witness :
  unique_acl unpublished_sketch = true
  /\ ace_is_public unpublished_sketch = Return false
  /\ ace_is_public published_sketch = Return true.
Proof.
  split; [reflexivity|]. split.
  - apply (is_public_iff_public_read_entry unpublished_sketch eq_refl)
      with (e := ACE 1 None false false false);
      [now left | reflexivity | reflexivity].
  - apply (is_public_iff_public_read_entry published_sketch eq_refl).
    exists (ACE 1 None true false false).
    split; [now left | split; reflexivity].
Defined.

(** C1.  On an object that satisfies the uniqueness invariant,
    [ace_can_read] decides in this order: the owner reads; otherwise, when
    the object is public every actor reads, also one whose own entry has
    [permission_read] off; otherwise the actor reads exactly when it has an
    entry and that entry has [permission_read] on, and no entry means no
    read. *)
Theorem can_read_precedence (object : Resource) (u : actor) :
  unique_acl object = true ->
  (Some (owner object) = u -> ace_can_read object u = Return true)
  /\ (Some (owner object) <> u -> ace_is_public object = Return true ->
      ace_can_read object u = Return true)
  /\ (Some (owner object) <> u -> ace_is_public object = Return false ->
      forall e, In e (acl object) -> user e = u ->
      ace_can_read object u = Return (permission_read e))
  /\ (Some (owner object) <> u -> ace_is_public object = Return false ->
      (forall e, In e (acl object) -> user e <> u) ->
      ace_can_read object u = Return false)
  /\ ace_can_read object u = Return (Spec.can_read object u).
Proof.
  intro H. repeat split.
  - intros <-. apply owner_can_read.
  - intros _ P. now apply public_can_read.
  - intros Hown P e Hin Hu.
    unfold ace_can_read.
    apply actor_eqb_neq in Hown. rewrite Hown, P. simpl.
    rewrite acl_get_by_user by exact H.
    rewrite (find_by_user_unique object H _ e Hin Hu). simpl.
    now destruct (permission_read e).
  - intros Hown P N. apply no_grant_no_read; try assumption.
    intros e Hin Hu. now destruct (N e Hin).
  - now apply ace_can_read_refines.
Qed.

Lemma can_read_precedence_witness :
  unique_acl published_shared_sketch = true
  /\ ace_can_read published_shared_sketch (Some 3) = Return true.
Proof.
  split; [reflexivity|].
  destruct (can_read_precedence published_shared_sketch (Some 3) eq_refl)
    as [_ [P _]].
  apply P; [discriminate | reflexivity].
Defined.

(** C10.  On an object that satisfies the uniqueness invariant, a read
    request of the actor [None] gets what [ace_is_public] returns: the owner
    is a user, so the first test fails, and the entry the last lookup finds
    for [None] is the public entry itself.  The actor [None] therefore never
    reads an object that is not public. *)
Theorem anonymous_can_read_is_public (object : Resource) :
  unique_acl object = true ->
  ace_can_read object None = ace_is_public object.
Proof.
  intro H.
  rewrite ace_can_read_refines, ace_is_public_refines by exact H.
  unfold Spec.can_read, Spec.is_public. simpl.
  destruct (Spec.find object None) as [e|]; [|reflexivity].
  now destruct (permission_read e).
Qed.

Lemma anonymous_can_read_is_public_witness :
  unique_acl unpublished_sketch = true
  /\ ace_can_read unpublished_sketch None = ace_is_public unpublished_sketch.
Proof.
  split; [reflexivity|].
  apply (anonymous_can_read_is_public unpublished_sketch). reflexivity.
Defined.

(** ** The two mutations, case by case *)

Lemma acl_get_not_found (kwargs : list lookup)
    (rows : list AccessControlEntry) :
  acl_get kwargs rows = Raise ObjectDoesNotExist <->
  filter (matches kwargs) rows = [].
Proof.
  unfold acl_get.
  destruct (filter (matches kwargs) rows) as [|a [|b rest]];
    split; intro H; try reflexivity; discriminate.
Qed.

Lemma acl_get_found (kwargs : list lookup) (rows : list AccessControlEntry)
    (ace : AccessControlEntry) :
  acl_get kwargs rows = Return ace <-> filter (matches kwargs) rows = [ace].
Proof.
  unfold acl_get.
  destruct (filter (matches kwargs) rows) as [|a [|b rest]];
    split; intro H; try discriminate; now inversion H.
Qed.

Lemma ace_make_public_outcome (object : Resource) (u : actor) :
  make_public_outcome object u (ace_make_public object u).
Proof.
  unfold ace_make_public.
  destruct (ace_can_write object u) as [[|]|e] eqn:W.
  - destruct (acl_get [by_user None] (acl object)) as [ace|[| |]] eqn:G;
      simpl.
    + now apply public_found with ace.
    + now apply public_created.
    + now apply public_several.
    + exfalso. unfold acl_get in G.
      destruct (filter (matches [by_user None]) (acl object))
        as [|a [|b rest]]; discriminate.
  - now apply public_refused.
  - now apply public_check_raised.
Qed.

Lemma ace_make_private_outcome (object : Resource) (u : actor) :
  make_private_outcome object u (ace_make_private object u).
Proof.
  unfold ace_make_private.
  destruct (ace_can_write object u) as [[|]|e] eqn:W.
  - destruct (acl_get [by_user None] (acl object)) as [ace|[| |]] eqn:G.
    + now apply private_deleted.
    + now apply private_absent.
    + now apply private_several.
    + exfalso. unfold acl_get in G.
      destruct (filter (matches [by_user None]) (acl object))
        as [|a [|b rest]]; discriminate.
  - now apply private_refused.
  - now apply private_check_raised.
Qed.

(** Case analysis on the course of a call. *)
Ltac public_outcomes object u :=
  let X := fresh "X" in
  pose proof (ace_make_public_outcome object u) as X;
  destruct (ace_make_public object u) as [? ?];
  inversion X; subst; simpl.

Ltac private_outcomes object u :=
  let X := fresh "X" in
  pose proof (ace_make_private_outcome object u) as X;
  destruct (ace_make_private object u) as [? ?];
  inversion X; subst; simpl.

(** C7.  When [ace_can_write] returns [False] for the actor, both
    [ace_make_public] and [ace_make_private] return without raising and
    leave the object with the rows it had, so that [ace_is_public] gives the
    same before and after. *)
Theorem refused_mutation_is_silent (object : Resource) (u : actor) :
  ace_can_write object u = Return false ->
  ace_make_public object u = (Return tt, object)
  /\ ace_make_private object u = (Return tt, object)
  /\ ace_is_public (snd (ace_make_public object u)) = ace_is_public object
  /\ ace_is_public (snd (ace_make_private object u)) = ace_is_public object.
Proof.
  intro W. unfold ace_make_public, ace_make_private. rewrite W. simpl.
  repeat split; reflexivity.
Qed.

Lemma refused_mutation_is_silent_witness :
  ace_can_write shared_sketch (Some 3) = Return false
  /\ ace_make_public shared_sketch (Some 3) = (Return tt, shared_sketch)
  /\ ace_make_private shared_sketch (Some 3) = (Return tt, shared_sketch).
Proof.
  split; [reflexivity|].
  destruct (refused_mutation_is_silent shared_sketch (Some 3) eq_refl)
    as [P [Q _]].
  split; [exact P | exact Q].
Defined.

(** ** The invariant along the mutations *)

Lemma filter_filter_le {A : Type} (p q : A -> bool) (l : list A) :
  List.length (filter p (filter q l)) <= List.length (filter p l).
Proof.
  induction l as [|x l IH]; simpl; [lia|].
  destruct (q x); simpl; destruct (p x); simpl; lia.
Qed.

Lemma filter_by_user_none (rows : list AccessControlEntry) :
  filter (matches [by_user None]) rows = filter (by_user None) rows.
Proof. apply filter_ext. intro a. apply matches_one. Qed.

Lemma acl_create_unique (object : Resource) :
  unique_acl object = true ->
  acl_get [by_user None] (acl object) = Raise ObjectDoesNotExist ->
  unique_acl (acl_create None true object) = true.
Proof.
  intros H G. apply acl_get_not_found in G.
  rewrite filter_by_user_none in G.
  apply unique_acl_lookup. intro u. simpl.
  rewrite filter_app, length_app. simpl.
  destruct u as [x|].
  - unfold by_user at 2. simpl.
    rewrite Nat.add_0_r. now apply unique_acl_lookup.
  - rewrite G. simpl. lia.
Qed.

Lemma ace_delete_unique (ace : AccessControlEntry) (object : Resource) :
  unique_acl object = true -> unique_acl (ace_delete ace object) = true.
Proof.
  intro H. apply unique_acl_lookup. intro u. simpl.
  eapply Nat.le_trans; [apply filter_filter_le|].
  now apply unique_acl_lookup.
Qed.

Lemma ace_make_public_unique (object : Resource) (u : actor) :
  unique_acl object = true ->
  unique_acl (snd (ace_make_public object u)) = true.
Proof.
  intro H. public_outcomes object u; auto using acl_create_unique.
Qed.

Lemma ace_make_private_unique (object : Resource) (u : actor) :
  unique_acl object = true ->
  unique_acl (snd (ace_make_private object u)) = true.
Proof.
  intro H. private_outcomes object u; auto using ace_delete_unique.
Qed.

Lemma exec_unique (c : op) (object : Resource) :
  unique_acl object = true -> unique_acl (snd (exec c object)) = true.
Proof.
  intro H. destruct c as [| u | u | u | u]; simpl; try exact H.
  - pose proof (ace_make_public_unique object u H) as P.
    now destruct (ace_make_public object u).
  - pose proof (ace_make_private_unique object u H) as P.
    now destruct (ace_make_private object u).
Qed.

Lemma run_unique (cs : list op) :
  forall object, unique_acl object = true -> unique_acl (run cs object) = true.
Proof.
  induction cs as [|c cs IH]; intros object H; simpl; [exact H|].
  apply IH. now apply exec_unique.
Qed.

(** The three queries give the object back as they got it. *)
Lemma exec_query_unchanged (c : op) (object : Resource) :
  match c with
  | IsPublic | CanRead _ | CanWrite _ => snd (exec c object) = object
  | MakePublic _ | MakePrivate _ => True
  end.
Proof. destruct c; simpl; auto. Qed.

(** C8.  The uniqueness invariant (at most one entry for each actor, the
    public [None] included) is kept by every call of the access evaluator
    and by every sequence of such calls made one after the other:
    [ace_is_public], [ace_can_read] and [ace_can_write] change no row,
    [ace_make_private] only removes rows, and [ace_make_public] changes the
    rows only by creating a public entry when the lookup for one found
    none. *)
Theorem uniqueness_preserved (object : Resource) :
  unique_acl object = true ->
  (forall c, unique_acl (snd (exec c object)) = true)
  /\ (forall cs, unique_acl (run cs object) = true)
  /\ (forall u, unique_acl (snd (ace_make_public object u)) = true)
  /\ (forall u, unique_acl (snd (ace_make_private object u)) = true)
  /\ (forall u,
        snd (ace_make_public object u) = object
        \/ (filter (by_user None) (acl object) = []
            /\ snd (ace_make_public object u) = acl_create None true object)).
Proof.
  intro H. repeat split.
  - intro c. now apply exec_unique.
  - intro cs. now apply run_unique.
  - intro u. now apply ace_make_public_unique.
  - intro u. now apply ace_make_private_unique.
  - intro u. public_outcomes object u; auto.
    right. split; [|reflexivity].
    rewrite <- filter_by_user_none. now apply acl_get_not_found.
Qed.

Lemma uniqueness_preserved_witness :
  unique_acl shared_sketch = true
  /\ unique_acl
       (run [MakePublic (Some 2); MakePublic (Some 1); CanRead None;
             MakePrivate (Some 3); MakePrivate (Some 2); MakePublic (Some 1)]
            shared_sketch) = true.
Proof.
  split; [reflexivity|].
  destruct (uniqueness_preserved shared_sketch eq_refl) as [_ [P _]].
  apply P.
Defined.

(** ** Publication and the write permission *)

(** [ace_make_public] changes what [ace_can_write] gives for no actor: the
    entry it may create has [permission_write] off. *)
Lemma make_public_keeps_can_write (object : Resource) (w a : actor) :
  ace_can_write (snd (ace_make_public object w)) a = ace_can_write object a.
Proof.
  public_outcomes object w; try reflexivity.
  unfold ace_can_write, acl_get. simpl.
  rewrite filter_app. simpl.
  rewrite andb_false_r. now rewrite app_nil_r.
Qed.

(** C4.  On an object that satisfies the uniqueness invariant,
    [ace_can_write] returns [True] exactly when the actor is the owner or
    has an entry with [permission_write] on, and returns [False] otherwise.
    Publication grants no write: after [ace_make_public], called by any
    actor, an actor who is not the owner and has no entry with
    [permission_write] on still gets [False]. *)
Theorem can_write_owner_or_grant (object : Resource) (u : actor) :
  unique_acl object = true ->
  (ace_can_write object u = Return true <->
   Some (owner object) = u
   \/ exists e, In e (acl object) /\ user e = u /\ permission_write e = true)
  /\ (ace_can_write object u = Return true
      \/ ace_can_write object u = Return false)
  /\ (forall w,
        Some (owner object) <> u ->
        (forall e, In e (acl object) -> user e = u ->
                   permission_write e = false) ->
        ace_can_write (snd (ace_make_public object w)) u = Return false).
Proof.
  intro H.
  assert (Hiff : ace_can_write object u = Return true <->
    Some (owner object) = u
    \/ exists e, In e (acl object) /\ user e = u
                 /\ permission_write e = true).
  { rewrite ace_can_write_refines by exact H. unfold Spec.can_write.
    rewrite (actor_eqb_sym u).
    destruct (actor_eqb (Some (owner object)) u) eqn:E.
    - apply actor_eqb_eq in E. tauto.
    - apply actor_eqb_neq in E.
      destruct (Spec.find object u) as [e|] eqn:F.
      + pose proof (find_by_user_some _ _ _ F) as [Hin Hu]. split.
        * intro R. right. exists e. repeat split; congruence.
        * intros [O | [e' [Hin' [Hu' R]]]]; [contradiction|].
          rewrite (find_by_user_unique object H _ e' Hin' Hu') in F.
          congruence.
      + split; [discriminate|].
        intros [O | [e' [Hin' [Hu' R]]]]; [contradiction|].
        now destruct (find_by_user_none _ _ F e' Hin'). }
  split; [exact Hiff|]. split.
  - rewrite ace_can_write_refines by exact H.
    destruct (Spec.can_write object u); auto.
  - intros w Hown Hno. rewrite make_public_keeps_can_write.
    rewrite ace_can_write_refines in * by exact H.
    destruct (Spec.can_write object u); [|reflexivity].
    exfalso. destruct Hiff as [Hiff _].
    destruct (Hiff eq_refl) as [O | [e [Hin [Hu R]]]]; [contradiction|].
    rewrite (Hno e Hin Hu) in R. discriminate.
Qed.

Lemma can_write_owner_or_grant_witness :
  unique_acl shared_sketch = true
  /\ ace_can_write (snd (ace_make_public shared_sketch (Some 1))) (Some 3)
     = Return false.
Proof.
  split; [reflexivity|].
  destruct (can_write_owner_or_grant shared_sketch (Some 3) eq_refl)
    as [_ [_ P]].
  apply P; [discriminate|].
  intros e [<-|[<-|[]]] E; [discriminate E | reflexivity].
Defined.

(** ** Publication followed by privatisation *)

Lemma fresh_pk_fresh (rows : list AccessControlEntry)
    (a : AccessControlEntry) :
  In a rows -> (pk a =? fresh_pk rows) = false.
Proof.
  intro Hin. apply Nat.eqb_neq. unfold fresh_pk.
  assert (Hle : list_max (map pk rows) <= list_max (map pk rows))
    by apply Nat.le_refl.
  apply list_max_le in Hle. rewrite Forall_forall in Hle.
  specialize (Hle (pk a) (in_map pk rows a Hin)). lia.
Qed.

Lemma with_acl_same (object : Resource) : with_acl object (acl object) = object.
Proof. now destruct object. Qed.

(** Deleting the entry that was just created gives the rows back. *)
Lemma delete_created (object : Resource) (u : actor) (r : bool) :
  ace_delete (ACE (fresh_pk (acl object)) u r false false)
             (acl_create u r object) = object.
Proof.
  destruct object as [own rows].
  unfold ace_delete, acl_create, with_acl. simpl. f_equal.
  rewrite filter_app. simpl. rewrite Nat.eqb_refl. simpl.
  rewrite app_nil_r. apply forallb_filter_id.
  apply forallb_forall. intros a Hin. now rewrite fresh_pk_fresh.
Qed.

Lemma make_public_rows (object : Resource) (u : actor)
    (e : AccessControlEntry) :
  In e (acl (snd (ace_make_public object u))) ->
  In e (acl object) \/ e = ACE (fresh_pk (acl object)) None true false false.
Proof.
  public_outcomes object u; auto.
  intro Hin. apply in_app_or in Hin. destruct Hin as [Hin|[<-|[]]]; auto.
Qed.

Lemma make_private_rows (object : Resource) (u : actor)
    (e : AccessControlEntry) :
  In e (acl (snd (ace_make_private object u))) -> In e (acl object).
Proof.
  private_outcomes object u; auto.
  intro Hin. now apply filter_In in Hin.
Qed.

(** An authorised [ace_make_private] on an object that satisfies the
    invariant returns and leaves no public entry. *)
Lemma make_private_removes_public (object : Resource) (u : actor) :
  unique_acl object = true ->
  ace_can_write object u = Return true ->
  fst (ace_make_private object u) = Return tt
  /\ Spec.find (snd (ace_make_private object u)) None = None.
Proof.
  intros H W. pose proof (ace_make_private_outcome object u) as X.
  destruct (ace_make_private object u) as [r object'].
  inversion X as [W' | e W' | W' G | ace W' G | W' G]; subst r object';
    simpl; try congruence.
  - split; [reflexivity|].
    rewrite acl_get_by_user in G by exact H.
    now destruct (Spec.find object None).
  - split; [reflexivity|].
    apply acl_get_found in G. rewrite filter_by_user_none in G.
    destruct (Spec.find (ace_delete ace object) None) as [e|] eqn:F;
      [|reflexivity].
    exfalso. apply find_by_user_some in F. destruct F as [Hin Hu].
    simpl in Hin. apply filter_In in Hin. destruct Hin as [Hin Hpk].
    assert (He : In e (filter (by_user None) (acl object))).
    { apply filter_In. split; [exact Hin|].
      unfold by_user. now apply actor_eqb_eq. }
    rewrite G in He. destruct He as [->|[]].
    now rewrite Nat.eqb_refl in Hpk.
  - rewrite acl_get_by_user in G by exact H.
    destruct (Spec.find object None); discriminate.
Qed.

(** On an object without a public entry an authorised [ace_make_public]
    returns, the object is public afterwards, and [ace_make_private] then
    gives back the rows the object had. *)
Lemma publish_then_unpublish (object : Resource) (u : actor) :
  ace_can_write object u = Return true ->
  acl_get [by_user None] (acl object) = Raise ObjectDoesNotExist ->
  ace_make_public object u = (Return tt, acl_create None true object)
  /\ ace_is_public (acl_create None true object) = Return true
  /\ ace_make_private (acl_create None true object) u = (Return tt, object).
Proof.
  intros W G.
  assert (P : ace_make_public object u
              = (Return tt, acl_create None true object)).
  { unfold ace_make_public. now rewrite W, G. }
  pose proof (make_public_keeps_can_write object u u) as K.
  rewrite P in K. simpl in K. rewrite W in K.
  apply acl_get_not_found in G. pose proof G as G'.
  rewrite filter_by_user_none in G'.
  split; [exact P|]. split.
  - unfold ace_is_public, acl_get. simpl.
    rewrite filter_app,
      (filter_ext _ _ (matches_two (by_user None) (by_permission_read true))),
      filter_conj, G'.
    reflexivity.
  - unfold ace_make_private. rewrite K.
    unfold acl_get. simpl. rewrite filter_app, G. simpl.
    now rewrite delete_created.
Qed.

(** C9.  For an object that satisfies the uniqueness invariant and an
    actor for whom [ace_can_write] returns [True]: [ace_make_private] called
    after [ace_make_public] returns, [ace_is_public] then returns [False],
    and every actor who is not the owner and has no entry with
    [permission_read] on gets [False] from [ace_can_read], which is what the
    actor got before the two calls when the object was not public.  When the
    object had no public entry, [ace_make_public] returns, the object is
    public in between, and the two calls leave exactly the rows the object
    had. *)
Theorem make_private_after_make_public (object : Resource) (u : actor) :
  unique_acl object = true ->
  ace_can_write object u = Return true ->
  fst (ace_make_private (snd (ace_make_public object u)) u) = Return tt
  /\ ace_is_public (snd (ace_make_private (snd (ace_make_public object u)) u))
     = Return false
  /\ (forall a,
        Some (owner object) <> a ->
        (forall e, In e (acl object) -> user e = a ->
                   permission_read e = false) ->
        ace_can_read (snd (ace_make_private (snd (ace_make_public object u)) u))
                     a = Return false
        /\ (ace_is_public object = Return false ->
            ace_can_read
              (snd (ace_make_private (snd (ace_make_public object u)) u)) a
            = ace_can_read object a))
  /\ (Spec.find object None = None ->
      fst (ace_make_public object u) = Return tt
      /\ ace_is_public (snd (ace_make_public object u)) = Return true
      /\ snd (ace_make_private (snd (ace_make_public object u)) u) = object).
Proof.
  intros H W.
  set (published := snd (ace_make_public object u)).
  assert (Hp : unique_acl published = true)
    by now apply ace_make_public_unique.
  assert (Wp : ace_can_write published u = Return true)
    by (unfold published; now rewrite make_public_keeps_can_write).
  destruct (make_private_removes_public published u Hp Wp) as [R F].
  set (final := snd (ace_make_private published u)) in *.
  assert (Hf : unique_acl final = true)
    by now apply ace_make_private_unique.
  assert (Pf : ace_is_public final = Return false).
  { rewrite ace_is_public_refines by exact Hf.
    unfold Spec.is_public. now rewrite F. }
  assert (Own : owner final = owner object).
  { unfold final, published.
    pose proof (ace_make_public_outcome object u) as X.
    destruct (ace_make_public object u) as [r1 o1].
    pose proof (ace_make_private_outcome (snd (r1, o1)) u) as Y.
    destruct (ace_make_private (snd (r1, o1)) u) as [r2 o2].
    inversion X; subst; inversion Y; subst; reflexivity. }
  assert (Rd : forall a,
             Some (owner object) <> a ->
             (forall e, In e (acl object) -> user e = a ->
                        permission_read e = false) ->
             ace_can_read final a = Return false).
  { intros a Hown Hno. apply no_grant_no_read; try assumption.
    - now rewrite Own.
    - intros e Hin Hu.
      pose proof (find_by_user_none _ _ F e Hin) as Hn.
      apply make_private_rows in Hin. apply make_public_rows in Hin.
      destruct Hin as [Hin | ->]; [now apply Hno|].
      now destruct Hn. }
  split; [exact R|]. split; [exact Pf|]. split.
  - intros a Hown Hno. split; [now apply Rd|].
    intro Po. rewrite (Rd a Hown Hno). symmetry.
    now apply no_grant_no_read.
  - intro N.
    assert (G : acl_get [by_user None] (acl object)
                = Raise ObjectDoesNotExist).
    { rewrite acl_get_by_user by exact H. now rewrite N. }
    destruct (publish_then_unpublish object u W G) as [P [Q S]].
    unfold final, published. rewrite P. simpl. rewrite S. simpl.
    repeat split; assumption || reflexivity.
Qed.

Lemma make_private_after_make_public_witness :
  unique_acl shared_sketch = true
  /\ ace_can_write shared_sketch (Some 2) = Return true
  /\ ace_is_public
       (snd (ace_make_private (snd (ace_make_public shared_sketch (Some 2)))
                              (Some 2))) = Return false
  /\ snd (ace_make_private (snd (ace_make_public shared_sketch (Some 2)))
                           (Some 2)) = shared_sketch.
Proof.
  split; [reflexivity|]. split; [reflexivity|].
  destruct (make_private_after_make_public shared_sketch (Some 2)
              eq_refl eq_refl) as [_ [P [_ Q]]].
  split; [exact P|]. now apply Q.
Defined.

(** ** [ace_make_public] on an object that has a public entry *)

(** [AccessControlEntry] declares no attribute named [read]. *)
Lemma ace_getattr_read (ace : AccessControlEntry) :
  ace_getattr ace "read" = Raise AttributeError.
Proof. reflexivity. Qed.

(** Once its lookup has found the public entry, [ace_make_public] raises
    [AttributeError] and changes no row. *)
Lemma make_public_found_raises (object : Resource) (u : actor)
    (ace : AccessControlEntry) :
  ace_can_write object u = Return true ->
  acl_get [by_user None] (acl object) = Return ace ->
  ace_make_public object u = (Raise AttributeError, object).
Proof.
  intros W G. unfold ace_make_public. now rewrite W, G.
Qed.

(** A second authorised call in a row never returns. *)
Lemma second_make_public_raises (object : Resource) (u : actor) :
  ace_can_write object u = Return true ->
  exists e,
    fst (ace_make_public (snd (ace_make_public object u)) u) = Raise e.
Proof.
  intro W. pose proof (ace_make_public_outcome object u) as X.
  destruct (ace_make_public object u) as [r object'] eqn:P.
  inversion X as [W' | e W' | W' G | ace W' G | W' G]; subst r object';
    simpl; try congruence.
  - exists AttributeError.
    pose proof (make_public_keeps_can_write object u u) as K.
    rewrite P in K. simpl in K. rewrite W in K.
    rewrite make_public_found_raises
      with (ace := ACE (fresh_pk (acl object)) None true false false);
      [reflexivity | exact K |].
    apply acl_get_not_found in G.
    unfold acl_get. simpl. now rewrite filter_app, G.
  - exists AttributeError. now rewrite P.
  - exists MultipleObjectsReturned. now rewrite P.
Qed.

(** C2.  The owner (user 1) calls [ace_make_public] on a sketch that has
    one public entry.  With [permission_read] off on that entry the call
    raises [AttributeError] and the flag stays off, so the sketch is still
    not public; with [permission_read] on the call raises [AttributeError]
    as well.  The condition [if not ace.read] reads an attribute that the
    model does not declare. *)
Theorem make_public_existing_entry_raises :
  unique_acl unpublished_sketch = true
  /\ ace_can_write unpublished_sketch (Some 1) = Return true
  /\ ace_make_public unpublished_sketch (Some 1)
     = (Raise AttributeError, unpublished_sketch)
  /\ ace_is_public (snd (ace_make_public unpublished_sketch (Some 1)))
     = Return false
  /\ unique_acl published_sketch = true
  /\ ace_can_write published_sketch (Some 1) = Return true
  /\ ace_make_public published_sketch (Some 1)
     = (Raise AttributeError, published_sketch).
Proof.
  repeat split; try reflexivity.
Qed.

(** C3.  The owner (user 1) calls [ace_make_public] twice in a row on a
    sketch with no entry.  The first call returns, creates the public entry
    and the sketch is public; the second call finds that entry and raises
    [AttributeError].  The sketch keeps its one public entry. *)
Theorem make_public_second_call_raises :
  ace_can_write private_sketch (Some 1) = Return true
  /\ ace_make_public private_sketch (Some 1) = (Return tt, published_sketch)
  /\ ace_is_public published_sketch = Return true
  /\ ace_make_public published_sketch (Some 1)
     = (Raise AttributeError, published_sketch)
  /\ List.length (filter (by_user None) (acl published_sketch)) = 1.
Proof.
  repeat split; reflexivity.
Qed.

(** ** [Sketch.get_collaborators] *)

Lemma set_add_entries (e : AccessControlEntry) (s : list pyval) :
  forallb is_entry s = true -> forallb is_entry (set_add (PyACE e) s) = true.
Proof.
  intro H. unfold set_add. destruct (existsb (py_eqb (PyACE e)) s);
    [exact H|].
  rewrite forallb_app, H. reflexivity.
Qed.

(** The loop returns, and what it adds to the set are entries. *)
Lemma collect_entries (self : Resource) (rows : list AccessControlEntry) :
  forall s, forallb is_entry s = true ->
  exists s', Sketch.collect self rows s = Return s'
             /\ forallb is_entry s' = true.
Proof.
  induction rows as [|ace rows IH]; intros s Hs; simpl.
  - now exists s.
  - destruct (truthy (of_actor (user ace))
              && negb (py_eqb (of_actor (user ace)) (PyUser (owner self)))).
    + apply IH. now apply set_add_entries.
    + now apply IH.
Qed.

(** Whatever the sketch, [get_collaborators] returns a set every element of
    which is an [AccessControlEntry], none a user. *)
Lemma get_collaborators_entries (self : Resource) :
  exists s, Sketch.get_collaborators self = Return s
            /\ forallb is_entry s = true.
Proof. now apply collect_entries. Qed.

(** C5.  On the sketch of user 1 shared with users 2 and 3,
    [get_collaborators] returns the two [AccessControlEntry] records, not
    the users 2 and 3 that its documentation and the specification name: no
    element of the returned set is a user. *)
Theorem get_collaborators_returns_entries :
  Sketch.get_collaborators shared_sketch
  = Return [PyACE (ACE 1 (Some 2) true true false);
            PyACE (ACE 2 (Some 3) false false false)]
  /\ Spec.get_collaborators shared_sketch = [PyUser 3; PyUser 2]
  /\ (forall s, Sketch.get_collaborators shared_sketch = Return s ->
      existsb is_user s = false).
Proof.
  split; [reflexivity|]. split; [reflexivity|].
  intros s E. vm_compute in E. injection E as <-. reflexivity.
Qed.

(** * Further properties of the module *)

(** ** Lookups on fewer and on more rows *)

Lemma filter_comm {A : Type} (p q : A -> bool) (l : list A) :
  filter p (filter q l) = filter q (filter p l).
Proof.
  rewrite <- !filter_conj. apply filter_ext. intro x. apply andb_comm.
Qed.

(** Removing rows turns a lookup that found its row into one that finds it
    or finds nothing, and leaves an empty lookup empty. *)
Lemma acl_get_filter (kwargs : list lookup) (r : AccessControlEntry -> bool)
    (rows : list AccessControlEntry) :
  match acl_get kwargs rows with
  | Return a =>
      acl_get kwargs (filter r rows)
      = if r a then Return a else Raise ObjectDoesNotExist
  | Raise ObjectDoesNotExist =>
      acl_get kwargs (filter r rows) = Raise ObjectDoesNotExist
  | Raise _ => True
  end.
Proof.
  unfold acl_get. rewrite filter_comm.
  destruct (filter (matches kwargs) rows) as [|a [|b rest]]; simpl; auto.
  now destruct (r a).
Qed.

(** A new row that a lookup does not select does not change it. *)
Lemma acl_get_app_other (kwargs : list lookup)
    (rows : list AccessControlEntry) (e : AccessControlEntry) :
  matches kwargs e = false ->
  acl_get kwargs (rows ++ [e]) = acl_get kwargs rows.
Proof.
  intro M. unfold acl_get. rewrite filter_app. simpl. rewrite M.
  now rewrite app_nil_r.
Qed.

(** The entry that [ace_make_public] creates makes the object public. *)
Lemma created_is_public (object : Resource) :
  filter (by_user None) (acl object) = [] ->
  ace_is_public (acl_create None true object) = Return true.
Proof.
  intro G. unfold ace_is_public, acl_get. simpl.
  rewrite filter_app,
    (filter_ext _ _ (matches_two (by_user None) (by_permission_read true))),
    filter_conj, G.
  reflexivity.
Qed.

(** ** One call and the rows *)

Lemma make_public_row_change (object : Resource) (u : actor) :
  row_change object (snd (ace_make_public object u)).
Proof.
  public_outcomes object u; try apply rows_kept.
  apply row_created. rewrite <- filter_by_user_none.
  now apply acl_get_not_found.
Qed.

Lemma make_private_row_change (object : Resource) (u : actor) :
  row_change object (snd (ace_make_private object u)).
Proof.
  private_outcomes object u; try apply rows_kept.
  apply row_deleted. rewrite <- filter_by_user_none.
  now apply acl_get_found.
Qed.

Lemma exec_row_change (c : op) (object : Resource) :
  row_change object (snd (exec c object)).
Proof.
  destruct c as [| u | u | u | u]; simpl; try apply rows_kept.
  - pose proof (make_public_row_change object u) as P.
    now destruct (ace_make_public object u).
  - pose proof (make_private_row_change object u) as P.
    now destruct (ace_make_private object u).
Qed.

(** A property that every single change keeps is kept by every sequence
    of calls. *)
Lemma run_keeps (P : Resource -> Prop) :
  (forall o o', row_change o o' -> P o -> P o') ->
  forall cs object, P object -> P (run cs object).
Proof.
  intros step cs. induction cs as [|c cs IH]; intros object H; simpl;
    [exact H|].
  apply IH. apply (step object); [apply exec_row_change | exact H].
Qed.

Lemma row_change_owner (o o' : Resource) :
  row_change o o' -> owner o' = owner o.
Proof. intro C. now destruct C. Qed.

(** No change of the rows turns a refusal of [ace_can_write] into a
    grant. *)
Lemma row_change_no_write (o o' : Resource) (a : actor) :
  row_change o o' ->
  ace_can_write o a = Return false -> ace_can_write o' a = Return false.
Proof.
  intros C W. destruct C as [| G | ace G]; [exact W| |];
    unfold ace_can_write in *;
    cbn [owner acl acl_create ace_delete with_acl];
    destruct (actor_eqb (Some (owner o)) a); try discriminate.
  - rewrite acl_get_app_other; [exact W|].
    rewrite matches_two. apply andb_false_r.
  - pose proof (acl_get_filter [by_user a; by_permission_write true]
                  (fun x => negb (pk x =? pk ace)) (acl o)) as F.
    destruct (acl_get [by_user a; by_permission_write true] (acl o))
      as [e|[| |]]; try discriminate.
    now rewrite F.
Qed.

(** X1.  No sequence of calls of the access evaluator gives write access:
    an actor whom [ace_can_write] refuses is still refused after any
    sequence of [ace_is_public], [ace_can_read], [ace_can_write],
    [ace_make_public] and [ace_make_private] calls, by whatever actors; in
    particular the actor's own [ace_make_public] and [ace_make_private]
    then change no row. *)
Theorem no_call_grants_write (object : Resource) (a : actor) (cs : list op) :
  ace_can_write object a = Return false ->
  ace_can_write (run cs object) a = Return false
  /\ snd (ace_make_public (run cs object) a) = run cs object
  /\ snd (ace_make_private (run cs object) a) = run cs object.
Proof.
  intro W.
  assert (R : ace_can_write (run cs object) a = Return false).
  { revert cs object W.
    apply (run_keeps (fun o => ace_can_write o a = Return false)).
    intros o o' C. now apply row_change_no_write. }
  split; [exact R|].
  unfold ace_make_public, ace_make_private. rewrite R. split; reflexivity.
Qed.

Lemma no_call_grants_write_witness :
  ace_can_write shared_sketch (Some 3) = Return false
  /\ ace_can_write
       (run [MakePublic (Some 1); MakePrivate (Some 2); MakePublic (Some 3);
             MakePublic (Some 2)] shared_sketch) (Some 3) = Return false.
Proof.
  split; [reflexivity|].
  apply (no_call_grants_write shared_sketch (Some 3)
           [MakePublic (Some 1); MakePrivate (Some 2); MakePublic (Some 3);
            MakePublic (Some 2)] eq_refl).
Defined.

(** ** Publication and the read permission *)

(** X2.  [ace_make_public] takes read access from nobody: an actor for
    whom [ace_can_read] returns [True] still gets [True] after a call of
    [ace_make_public], whoever makes it and however it ends. *)
Theorem make_public_keeps_read (object : Resource) (w a : actor) :
  ace_can_read object a = Return true ->
  ace_can_read (snd (ace_make_public object w)) a = Return true.
Proof.
  intro R. public_outcomes object w; try exact R.
  apply public_can_read. apply created_is_public.
  rewrite <- filter_by_user_none. now apply acl_get_not_found.
Qed.

Lemma make_public_keeps_read_witness :
  ace_can_read shared_sketch (Some 2) = Return true
  /\ ace_can_read (snd (ace_make_public shared_sketch (Some 1))) (Some 2)
     = Return true.
Proof.
  split; [reflexivity|].
  apply (make_public_keeps_read shared_sketch (Some 1) (Some 2) eq_refl).
Defined.

(** X3.  [ace_make_private] gives read access to nobody: an actor for whom
    [ace_can_read] returns [False] still gets [False] after a call of
    [ace_make_private], whoever makes it. *)
Theorem make_private_grants_no_read (object : Resource) (w a : actor) :
  ace_can_read object a = Return false ->
  ace_can_read (snd (ace_make_private object w)) a = Return false.
Proof.
  intro R. private_outcomes object w; try exact R.
  unfold ace_can_read, ace_is_public in *.
  cbn [owner acl ace_delete with_acl].
  destruct (actor_eqb (Some (owner object)) a); [discriminate|].
  pose proof (acl_get_filter [by_user None; by_permission_read true]
                (fun x => negb (pk x =? pk ace)) (acl object)) as F.
  destruct (acl_get [by_user None; by_permission_read true] (acl object))
    as [e|[| |]]; try discriminate.
  rewrite F. cbn [bind] in *.
  pose proof (acl_get_filter [by_user a]
                (fun x => negb (pk x =? pk ace)) (acl object)) as F'.
  destruct (acl_get [by_user a] (acl object)) as [e|[| |]];
    try discriminate; rewrite F'; [|reflexivity].
  now destruct (negb (pk e =? pk ace)).
Qed.

Lemma make_private_grants_no_read_witness :
  ace_can_read shared_sketch (Some 3) = Return false
  /\ ace_can_read (snd (ace_make_private shared_sketch (Some 1))) (Some 3)
     = Return false.
Proof.
  split; [reflexivity|].
  apply (make_private_grants_no_read shared_sketch (Some 1) (Some 3) eq_refl).
Defined.

(** X4.  On an object without a public entry, [ace_make_public] called by
    an actor whom [ace_can_write] accepts returns, the object is public
    afterwards and [ace_can_read] returns [True] for every actor, [None]
    included. *)
Theorem make_public_publishes (object : Resource) (u : actor) :
  ace_can_write object u = Return true ->
  Spec.find object None = None ->
  fst (ace_make_public object u) = Return tt
  /\ ace_is_public (snd (ace_make_public object u)) = Return true
  /\ forall a, ace_can_read (snd (ace_make_public object u)) a = Return true.
Proof.
  intros W N.
  assert (G : filter (by_user None) (acl object) = []).
  { destruct (filter (by_user None) (acl object)) as [|e rest] eqn:F;
      [reflexivity|].
    assert (Hin : In e (filter (by_user None) (acl object)))
      by (rewrite F; now left).
    apply filter_In in Hin. destruct Hin as [Hin Hu].
    unfold by_user in Hu. apply actor_eqb_eq in Hu.
    now destruct (find_by_user_none _ _ N e Hin). }
  assert (P : ace_make_public object u
              = (Return tt, acl_create None true object)).
  { unfold ace_make_public. rewrite W.
    assert (E : acl_get [by_user None] (acl object)
                = Raise ObjectDoesNotExist).
    { apply acl_get_not_found. now rewrite filter_by_user_none. }
    now rewrite E. }
  rewrite P. simpl. split; [reflexivity|].
  pose proof (created_is_public object G) as Pub.
  split; [exact Pub|]. intro a. now apply public_can_read.
Qed.

Lemma make_public_publishes_witness :
  ace_can_write shared_sketch (Some 2) = Return true
  /\ Spec.find shared_sketch None = None
  /\ ace_can_read (snd (ace_make_public shared_sketch (Some 2))) None
     = Return true.
Proof.
  split; [reflexivity|]. split; [reflexivity|].
  apply (make_public_publishes shared_sketch (Some 2) eq_refl eq_refl).
Defined.

(** ** [ace_make_private] twice *)

(** X5.  [ace_make_private] can be repeated: a second call in a row by the
    same actor leaves the rows as the first call left them, on every
    object, and returns when the first call returned. *)
Theorem make_private_idempotent (object : Resource) (u : actor) :
  snd (ace_make_private (snd (ace_make_private object u)) u)
  = snd (ace_make_private object u)
  /\ (fst (ace_make_private object u) = Return tt ->
      fst (ace_make_private (snd (ace_make_private object u)) u)
      = Return tt).
Proof.
  pose proof (ace_make_private_outcome object u) as X.
  destruct (ace_make_private object u) as [r object'] eqn:P.
  inversion X as [W | e W | W G | ace W G | W G]; subst r object';
    cbn [fst snd]; try (rewrite P; split; [reflexivity | auto]).
  assert (G' : acl_get [by_user None] (acl (ace_delete ace object))
               = Raise ObjectDoesNotExist).
  { pose proof (acl_get_filter [by_user None]
                  (fun x => negb (pk x =? pk ace)) (acl object)) as F.
    rewrite G in F. rewrite Nat.eqb_refl in F. exact F. }
  assert (W' : ace_can_write (ace_delete ace object) u = Return true
               \/ ace_can_write (ace_delete ace object) u = Return false).
  { unfold ace_can_write in *. cbn [owner acl ace_delete with_acl].
    destruct (actor_eqb (Some (owner object)) u); [now left|].
    pose proof (acl_get_filter [by_user u; by_permission_write true]
                  (fun x => negb (pk x =? pk ace)) (acl object)) as F.
    destruct (acl_get [by_user u; by_permission_write true] (acl object))
      as [e|[| |]]; try discriminate.
    rewrite F. destruct (negb (pk e =? pk ace)); auto. }
  unfold ace_make_private.
  destruct W' as [W' | W']; rewrite W'; [rewrite G'|]; split; reflexivity.
Qed.

Lemma make_private_idempotent_witness :
  snd (ace_make_private
         (snd (ace_make_private published_shared_sketch (Some 1))) (Some 1))
  = snd (ace_make_private published_shared_sketch (Some 1)).
Proof.
  apply (make_private_idempotent published_shared_sketch (Some 1)).
Defined.

(** ** Rows with different primary keys *)

Lemma distinct_NoDup (l : list nat) : distinct l = true <-> NoDup l.
Proof.
  induction l as [|x l IH]; simpl.
  - split; [constructor | reflexivity].
  - rewrite andb_true_iff, negb_true_iff, NoDup_cons_iff, IH.
    assert (E : existsb (Nat.eqb x) l = false <-> ~ In x l).
    { split.
      - intros F Hin.
        assert (T : existsb (Nat.eqb x) l = true).
        { apply existsb_exists. exists x. split; [exact Hin|].
          apply Nat.eqb_refl. }
        congruence.
      - intro N. destruct (existsb (Nat.eqb x) l) eqn:T; [|reflexivity].
        apply existsb_exists in T. destruct T as [y [Hin Hy]].
        apply Nat.eqb_eq in Hy. subst y. contradiction. }
    now rewrite E.
Qed.

(** Taking rows away keeps the keys different. *)
Lemma distinct_keys_filter (keep : AccessControlEntry -> bool)
    (rows : list AccessControlEntry) :
  NoDup (map pk rows) -> NoDup (map pk (filter keep rows)).
Proof.
  intro D. induction rows as [|row rows IH]; simpl; [constructor|].
  simpl in D. apply NoDup_cons_iff in D. destruct D as [Hrow Hrows].
  destruct (keep row); simpl; [|now apply IH].
  constructor; [|now apply IH].
  intro Hin. apply Hrow. apply in_map_iff in Hin.
  destruct Hin as [other [E Hother]]. apply filter_In in Hother.
  apply in_map_iff. exists other. tauto.
Qed.

(** Rows with different keys are told apart by their key. *)
Lemma pk_determines_row (rows : list AccessControlEntry)
    (a b : AccessControlEntry) :
  NoDup (map pk rows) -> In a rows -> In b rows -> pk a = pk b -> a = b.
Proof.
  induction rows as [|x rows IH]; simpl; intros H Ha Hb E; [contradiction|].
  apply NoDup_cons_iff in H. destruct H as [Hx Hl].
  destruct Ha as [<-|Ha], Hb as [<-|Hb]; try reflexivity.
  - exfalso. apply Hx. rewrite E. now apply in_map.
  - exfalso. apply Hx. rewrite <- E. now apply in_map.
  - now apply IH.
Qed.

Lemma row_change_distinct (o o' : Resource) :
  row_change o o' -> distinct_pks o = true -> distinct_pks o' = true.
Proof.
  unfold distinct_pks. intros C D. apply distinct_NoDup in D.
  apply distinct_NoDup. destruct C as [| G | ace G]; simpl.
  - exact D.
  - rewrite map_app. apply NoDup_app; [exact D | |].
    + simpl. constructor; [now intros [] | constructor].
    + intros k Hk [<-|[]]. apply in_map_iff in Hk.
      destruct Hk as [e [E Hin]].
      pose proof (fresh_pk_fresh (acl o) e Hin) as F.
      apply Nat.eqb_neq in F. apply F. exact E.
  - now apply distinct_keys_filter.
Qed.

(** With different keys, a change of the rows touches no entry of a
    user. *)
Lemma row_change_personal (o o' : Resource) (x : User) :
  row_change o o' -> distinct_pks o = true ->
  filter (by_user (Some x)) (acl o') = filter (by_user (Some x)) (acl o).
Proof.
  unfold distinct_pks. intros C D. apply distinct_NoDup in D.
  destruct C as [| G | ace G]; simpl.
  - reflexivity.
  - rewrite filter_app. simpl. apply app_nil_r.
  - rewrite filter_comm. apply forallb_filter_id, forallb_forall.
    intros e He. apply filter_In in He. destruct He as [Hin Hu].
    apply negb_true_iff, Nat.eqb_neq. intro E.
    assert (Ha : In ace (filter (by_user None) (acl o)))
      by (rewrite G; now left).
    apply filter_In in Ha. destruct Ha as [Ha Hn].
    rewrite (pk_determines_row (acl o) e ace D Hin Ha E) in Hu.
    unfold by_user in Hu, Hn.
    apply actor_eqb_eq in Hu. apply actor_eqb_eq in Hn. congruence.
Qed.

(** [ace_can_write] looks at the owner and at the entries of the actor
    only. *)
Lemma ace_can_write_personal (o o' : Resource) (a : actor) :
  owner o' = owner o ->
  filter (by_user a) (acl o') = filter (by_user a) (acl o) ->
  ace_can_write o' a = ace_can_write o a.
Proof.
  intros Eo Ef. unfold ace_can_write, acl_get.
  rewrite !(filter_ext _ _ (matches_two (by_user a) (by_permission_write true))),
    !filter_conj, Eo, Ef.
  reflexivity.
Qed.

(** X6.  On an object whose rows have different primary keys, no sequence
    of calls of the access evaluator touches the entries of a user: after
    any sequence of calls the owner is the same, the entries of each user
    are the same, and [ace_can_write] gives for each user what it gave
    before.  Publication and privatisation neither grant nor revoke a
    user's write access. *)
Theorem calls_keep_entries_of_users (object : Resource) (cs : list op) :
  distinct_pks object = true ->
  owner (run cs object) = owner object
  /\ (forall x, filter (by_user (Some x)) (acl (run cs object))
                = filter (by_user (Some x)) (acl object))
  /\ (forall x, ace_can_write (run cs object) (Some x)
                = ace_can_write object (Some x)).
Proof.
  intro D.
  assert (K : distinct_pks (run cs object) = true
              /\ owner (run cs object) = owner object
              /\ forall x, filter (by_user (Some x)) (acl (run cs object))
                           = filter (by_user (Some x)) (acl object)).
  { apply (run_keeps
             (fun o => distinct_pks o = true
                       /\ owner o = owner object
                       /\ forall x, filter (by_user (Some x)) (acl o)
                                    = filter (by_user (Some x)) (acl object))).
    - intros o o' C [Do [Oo Fo]]. split; [|split].
      + now apply (row_change_distinct o o' C).
      + now rewrite (row_change_owner o o' C).
      + intro x. now rewrite (row_change_personal o o' x C Do).
    - auto. }
  destruct K as [_ [Eo Ef]]. split; [exact Eo|]. split; [exact Ef|].
  intro x. now apply ace_can_write_personal.
Qed.

Lemma calls_keep_entries_of_users_witness :
  distinct_pks shared_sketch = true
  /\ ace_can_write
       (run [MakePublic (Some 2); MakePrivate (Some 1); MakePublic (Some 1)]
            shared_sketch) (Some 2)
     = ace_can_write shared_sketch (Some 2).
Proof.
  split; [reflexivity|].
  destruct (calls_keep_entries_of_users shared_sketch
              [MakePublic (Some 2); MakePrivate (Some 1); MakePublic (Some 1)]
              eq_refl) as [_ [_ P]].
  apply P.
Defined.

(** ** What [ace_make_private] removes *)

(** X7.  On an object that satisfies the uniqueness invariant and whose
    rows have different primary keys, [ace_make_private] called by an actor
    whom [ace_can_write] accepts returns and removes the public entry and
    nothing else: the rows it leaves are the entries of users, in the order
    they had. *)
Theorem make_private_removes_public_entry_only (object : Resource)
    (u : actor) :
  unique_acl object = true ->
  distinct_pks object = true ->
  ace_can_write object u = Return true ->
  fst (ace_make_private object u) = Return tt
  /\ acl (snd (ace_make_private object u))
     = filter (fun e => negb (by_user None e)) (acl object)
  /\ (forall e, In e (acl (snd (ace_make_private object u))) <->
                In e (acl object) /\ user e <> None).
Proof.
  intros H D W.
  assert (E : fst (ace_make_private object u) = Return tt
              /\ acl (snd (ace_make_private object u))
                 = filter (fun e => negb (by_user None e)) (acl object)).
  { unfold distinct_pks in D. apply distinct_NoDup in D.
    pose proof (ace_make_private_outcome object u) as X.
    destruct (ace_make_private object u) as [r object'].
    inversion X as [W' | e W' | W' G | ace W' G | W' G]; subst r object';
      cbn [fst snd]; try congruence.
    - split; [reflexivity|]. symmetry.
      apply acl_get_not_found in G. rewrite filter_by_user_none in G.
      apply forallb_filter_id, forallb_forall. intros e Hin.
      destruct (by_user None e) eqn:B; [|reflexivity].
      assert (Hf : In e (filter (by_user None) (acl object)))
        by (apply filter_In; now split).
      rewrite G in Hf. contradiction.
    - split; [reflexivity|]. simpl.
      apply acl_get_found in G. rewrite filter_by_user_none in G.
      assert (Ha : In ace (filter (by_user None) (acl object)))
        by (rewrite G; now left).
      apply filter_In in Ha. destruct Ha as [Ha Hn].
      apply filter_ext_in. intros e Hin. f_equal.
      destruct (by_user None e) eqn:B.
      + assert (Hf : In e (filter (by_user None) (acl object)))
          by (apply filter_In; now split).
        rewrite G in Hf. destruct Hf as [<-|[]]. apply Nat.eqb_refl.
      + apply Nat.eqb_neq. intro Epk.
        rewrite (pk_determines_row (acl object) e ace D Hin Ha Epk) in B.
        congruence.
    - rewrite acl_get_by_user in G by exact H.
      destruct (Spec.find object None); discriminate. }
  destruct E as [E1 E2]. split; [exact E1|]. split; [exact E2|].
  intro e. rewrite E2, filter_In. unfold by_user.
  rewrite negb_true_iff, actor_eqb_neq. reflexivity.
Qed.

Lemma make_private_removes_public_entry_only_witness :
  unique_acl published_shared_sketch = true
  /\ distinct_pks published_shared_sketch = true
  /\ ace_can_write published_shared_sketch (Some 1) = Return true
  /\ acl (snd (ace_make_private published_shared_sketch (Some 1)))
     = [ACE 1 (Some 3) false false false].
Proof.
  split; [reflexivity|]. split; [reflexivity|]. split; [reflexivity|].
  destruct (make_private_removes_public_entry_only published_shared_sketch
              (Some 1) eq_refl eq_refl eq_refl) as [_ [P _]].
  exact P.
Defined.

(** ** Who changes the rows, and when *)

(** X8.  A call of [ace_make_public] or [ace_make_private] that does not
    leave the object as it was has returned without raising and was made by
    an actor whom [ace_can_write] accepts; so a call that raises, or that an
    actor without write access makes, changes nothing. *)
Theorem only_accepted_calls_change_rows (object : Resource) (u : actor) :
  (snd (ace_make_public object u) = object
   \/ (ace_can_write object u = Return true
       /\ fst (ace_make_public object u) = Return tt))
  /\ (snd (ace_make_private object u) = object
      \/ (ace_can_write object u = Return true
          /\ fst (ace_make_private object u) = Return tt)).
Proof.
  split.
  - public_outcomes object u; auto.
  - private_outcomes object u; auto.
Qed.

(** ** What the queries raise *)

Lemma acl_get_raises (kwargs : list lookup) (rows : list AccessControlEntry)
    (e : exn) :
  acl_get kwargs rows = Raise e ->
  e = ObjectDoesNotExist \/ e = MultipleObjectsReturned.
Proof.
  unfold acl_get.
  destruct (filter (matches kwargs) rows) as [|a [|b rest]];
    intro H; inversion H; auto.
Qed.

Lemma ace_is_public_raises (object : Resource) (e : exn) :
  ace_is_public object = Raise e -> e = MultipleObjectsReturned.
Proof.
  unfold ace_is_public.
  destruct (acl_get [by_user None; by_permission_read true] (acl object))
    as [a|x] eqn:G; [discriminate|].
  destruct (acl_get_raises _ _ _ G) as [-> | ->]; [discriminate|].
  now intros [= <-].
Qed.

Lemma ace_can_write_raises (object : Resource) (a : actor) (e : exn) :
  ace_can_write object a = Raise e -> e = MultipleObjectsReturned.
Proof.
  unfold ace_can_write.
  destruct (actor_eqb (Some (owner object)) a); [discriminate|].
  destruct (acl_get [by_user a; by_permission_write true] (acl object))
    as [b|x] eqn:G; [discriminate|].
  destruct (acl_get_raises _ _ _ G) as [-> | ->]; [discriminate|].
  now intros [= <-].
Qed.

Lemma ace_can_read_raises (object : Resource) (a : actor) (e : exn) :
  ace_can_read object a = Raise e -> e = MultipleObjectsReturned.
Proof.
  unfold ace_can_read.
  destruct (actor_eqb (Some (owner object)) a); [discriminate|].
  destruct (ace_is_public object) as [[|]|x] eqn:P; cbn [bind].
  - discriminate.
  - destruct (acl_get [by_user a] (acl object)) as [b|x] eqn:G.
    + cbn. destruct (permission_read b); discriminate.
    + destruct (acl_get_raises _ _ _ G) as [-> | ->]; [discriminate|].
      now intros [= <-].
  - intros [= <-]. now apply ace_is_public_raises with object.
Qed.

(** X9.  The three queries raise nothing but [MultipleObjectsReturned],
    and raise it only on an object that has two entries for one actor:
    when [ace_is_public], [ace_can_read] or [ace_can_write] raises, the
    exception is [MultipleObjectsReturned] and the uniqueness invariant does
    not hold. *)
Theorem queries_raise_only_on_duplicates (object : Resource) (a : actor)
    (e : exn) :
  ace_is_public object = Raise e
  \/ ace_can_read object a = Raise e
  \/ ace_can_write object a = Raise e ->
  e = MultipleObjectsReturned /\ unique_acl object = false.
Proof.
  intro R. split.
  - destruct R as [R | [R | R]].
    + now apply ace_is_public_raises with object.
    + now apply ace_can_read_raises with object a.
    + now apply ace_can_write_raises with object a.
  - destruct (unique_acl object) eqn:U; [|reflexivity]. exfalso.
    rewrite (ace_is_public_refines object U),
      (ace_can_read_refines object U), (ace_can_write_refines object U) in R.
    destruct R as [R | [R | R]]; discriminate.
Qed.

Lemma queries_raise_only_on_duplicates_witness :
  ace_can_read corrupt_sketch None = Raise MultipleObjectsReturned
  /\ unique_acl corrupt_sketch = false.
Proof.
  split; [reflexivity|].
  apply (queries_raise_only_on_duplicates corrupt_sketch None
           MultipleObjectsReturned).
  right. left. reflexivity.
Defined.

(** ** The set that [get_collaborators] builds *)

Lemma loop_test (own : User) (e : AccessControlEntry) :
  truthy (of_actor (user e)) && negb (py_eqb (of_actor (user e)) (PyUser own))
  = collaborator_entry own e.
Proof. unfold collaborator_entry. now destruct (user e). Qed.

(** An entry whose key no element of the set has is a new element. *)
Lemma set_add_new (e : AccessControlEntry) (l : list AccessControlEntry) :
  ~ In (pk e) (map pk l) ->
  set_add (PyACE e) (map PyACE l) = map PyACE (l ++ [e]).
Proof.
  intro N. unfold set_add.
  assert (F : existsb (py_eqb (PyACE e)) (map PyACE l) = false).
  { induction l as [|x l IH]; simpl; [reflexivity|].
    simpl in N. apply orb_false_iff. split.
    - apply Nat.eqb_neq. intro E. apply N. now left.
    - apply IH. intro Hin. apply N. now right. }
  rewrite F, map_app. reflexivity.
Qed.

Lemma collect_distinct (self : Resource) (rows : list AccessControlEntry) :
  forall seen,
    NoDup (map pk (seen ++ rows)) ->
    Sketch.collect self rows (map PyACE seen)
    = Return (map PyACE
                (seen ++ filter (collaborator_entry (owner self)) rows)).
Proof.
  induction rows as [|ace rows IH]; intros seen H.
  - simpl. now rewrite app_nil_r.
  - cbn [Sketch.collect filter].
    change (ace_getattr ace "user") with (Return (of_actor (user ace))).
    cbn [bind]. rewrite loop_test.
    destruct (collaborator_entry (owner self) ace).
    + rewrite set_add_new.
      * rewrite IH; [now rewrite <- app_assoc|].
        now rewrite <- app_assoc.
      * rewrite map_app in H. simpl in H.
        apply NoDup_remove_2 in H. intro Hin. apply H.
        apply in_or_app. now left.
    + apply IH. rewrite map_app in *. simpl in H.
      now apply NoDup_remove_1 in H.
Qed.

Lemma NoDup_entries (l : list AccessControlEntry) :
  NoDup (map pk l) -> NoDup (map PyACE l).
Proof.
  induction l as [|x l IH]; simpl; intro H; [constructor|].
  apply NoDup_cons_iff in H. destruct H as [Hx Hl].
  constructor; [|now apply IH].
  intro Hin. apply Hx. apply in_map_iff in Hin.
  destruct Hin as [y [E Hy]]. injection E as <-. now apply in_map.
Qed.

(** X10.  On a sketch whose rows have different primary keys,
    [get_collaborators] returns without raising a set with no repeated
    element that holds exactly the entries whose user is set and is not the
    owner: the public entry and the owner's entries are left out, every
    other entry is in. *)
Theorem get_collaborators_entries_of_others (self : Resource) :
  distinct_pks self = true ->
  exists s,
    Sketch.get_collaborators self = Return s
    /\ NoDup s
    /\ (forall v, In v s <->
          exists e x, v = PyACE e /\ In e (acl self)
                      /\ user e = Some x /\ x <> owner self).
Proof.
  unfold distinct_pks. intro D. apply distinct_NoDup in D.
  exists (map PyACE (filter (collaborator_entry (owner self)) (acl self))).
  split; [|split].
  - unfold Sketch.get_collaborators.
    exact (collect_distinct self (acl self) [] D).
  - apply NoDup_entries. now apply distinct_keys_filter.
  - intro v. rewrite in_map_iff. split.
    + intros [e [<- Hin]]. apply filter_In in Hin.
      destruct Hin as [Hin C]. unfold collaborator_entry in C.
      destruct (user e) as [x|] eqn:U; [|discriminate].
      exists e, x. repeat split; auto.
      apply negb_true_iff in C. now apply Nat.eqb_neq.
    + intros [e [x [-> [Hin [U N]]]]]. exists e. split; [reflexivity|].
      apply filter_In. split; [exact Hin|].
      unfold collaborator_entry. rewrite U.
      apply negb_true_iff. now apply Nat.eqb_neq.
Qed.

Lemma get_collaborators_entries_of_others_witness :
  distinct_pks published_shared_sketch = true
  /\ exists s,
       Sketch.get_collaborators published_shared_sketch = Return s
       /\ NoDup s
       /\ (forall v, In v s <->
             exists e x, v = PyACE e /\ In e (acl published_shared_sketch)
                         /\ user e = Some x
                         /\ x <> owner published_shared_sketch).
Proof.
  split; [reflexivity|].
  apply (get_collaborators_entries_of_others published_shared_sketch).
  reflexivity.
Defined.

(** ** An object without entries *)

(** X11.  On an object that has no entry, [ace_is_public] returns [False],
    [ace_can_read] and [ace_can_write] return [True] for the owner and
    [False] for every other actor, [None] included, [get_collaborators]
    returns the empty set, and [ace_make_private] returns for every actor
    and changes nothing. *)
Theorem object_without_entries (object : Resource) :
  acl object = [] ->
  ace_is_public object = Return false
  /\ ace_can_read object (Some (owner object)) = Return true
  /\ ace_can_write object (Some (owner object)) = Return true
  /\ (forall a, a <> Some (owner object) ->
                ace_can_read object a = Return false
                /\ ace_can_write object a = Return false)
  /\ Sketch.get_collaborators object = Return []
  /\ (forall a, ace_make_private object a = (Return tt, object)).
Proof.
  intro E. split; [|split; [|split; [|split; [|split]]]].
  - unfold ace_is_public. now rewrite E.
  - apply owner_can_read.
  - apply owner_can_write.
  - intros a N.
    assert (F : actor_eqb (Some (owner object)) a = false)
      by (apply actor_eqb_neq; congruence).
    unfold ace_can_read, ace_can_write, ace_is_public.
    rewrite F, E. split; reflexivity.
  - unfold Sketch.get_collaborators. now rewrite E.
  - intro a. unfold ace_make_private, ace_can_write. rewrite E.
    now destruct (actor_eqb (Some (owner object)) a).
Qed.

Lemma object_without_entries_witness :
  acl private_sketch = []
  /\ ace_can_read private_sketch None = Return false
  /\ ace_can_write private_sketch (Some 2) = Return false.
Proof.
  split; [reflexivity|].
  destruct (object_without_entries private_sketch eq_refl)
    as [_ [_ [_ [P _]]]].
  split; [apply (P None) | apply (P (Some 2))]; discriminate.
Defined.

(** ** The colours of [SketchTimeline] *)

(** X12.  Whichever element [random.choice] draws, [generate_color]
    returns one of the six colours of its list, and that colour is six
    capital hexadecimal digits long, so it fits the [color] field
    ([max_length=6]), and is not the field's default [FFFFFF]. *)
Theorem generate_color_fits_field (draw : nat) :
  draw < List.length SketchTimeline.colors ->
  exists c,
    SketchTimeline.generate_color draw = Some c
    /\ In c SketchTimeline.colors
    /\ String.length c = SketchTimeline.color_max_length
    /\ string_forall is_hex_digit c = true
    /\ c <> SketchTimeline.color_default.
Proof.
  intro H. simpl in H.
  do 6 (destruct draw as [|draw];
        [eexists; split; [reflexivity|];
         split; [simpl; tauto|];
         split; [reflexivity|];
         split; [reflexivity | discriminate] |]).
  lia.
Qed.

Lemma generate_color_fits_field_witness :
  3 < List.length SketchTimeline.colors
  /\ exists c,
       SketchTimeline.generate_color 3 = Some c
       /\ In c SketchTimeline.colors
       /\ String.length c = SketchTimeline.color_max_length
       /\ string_forall is_hex_digit c = true
       /\ c <> SketchTimeline.color_default.
Proof.
  split; [simpl; lia|].
  apply (generate_color_fits_field 3). simpl. lia.
Defined.

(** ** The public entry that the evaluator makes *)

(** Every public entry grants read and nothing else, and there is at most
    one. *)
Lemma public_entry_shape_kept (o o' : Resource) :
  row_change o o' ->
  (forall e, In e (acl o) -> user e = None ->
     permission_read e = true /\ permission_write e = false
     /\ permission_delete e = false)
  /\ List.length (filter (by_user None) (acl o)) <= 1 ->
  (forall e, In e (acl o') -> user e = None ->
     permission_read e = true /\ permission_write e = false
     /\ permission_delete e = false)
  /\ List.length (filter (by_user None) (acl o')) <= 1.
Proof.
  intros C [F L]. destruct C as [| G | ace G]; simpl.
  - now split.
  - split.
    + intros e Hin U. apply in_app_or in Hin.
      destruct Hin as [Hin | [<- | []]]; [now apply F | now simpl].
    + rewrite filter_app, G. simpl. lia.
  - split.
    + intros e Hin U. apply filter_In in Hin. now apply F.
    + eapply Nat.le_trans; [apply filter_filter_le | exact L].
Qed.

(** X13.  On an object that starts without a public entry, whatever calls
    of the access evaluator are made and by whom, the object never has more
    than one public entry, a public entry always has [permission_read] on
    and [permission_write] and [permission_delete] off, and [ace_is_public]
    never raises and returns [True] exactly when the object has a public
    entry. *)
Theorem evaluator_public_entry (object : Resource) (cs : list op) :
  Spec.find object None = None ->
  (forall e, In e (acl (run cs object)) -> user e = None ->
     permission_read e = true /\ permission_write e = false
     /\ permission_delete e = false)
  /\ List.length (filter (by_user None) (acl (run cs object))) <= 1
  /\ (ace_is_public (run cs object) = Return true <->
      exists e, In e (acl (run cs object)) /\ user e = None)
  /\ (ace_is_public (run cs object) = Return true
      \/ ace_is_public (run cs object) = Return false).
Proof.
  intro N.
  assert (K : (forall e, In e (acl (run cs object)) -> user e = None ->
                 permission_read e = true /\ permission_write e = false
                 /\ permission_delete e = false)
              /\ List.length (filter (by_user None) (acl (run cs object)))
                 <= 1).
  { apply (run_keeps
             (fun o =>
                (forall e, In e (acl o) -> user e = None ->
                   permission_read e = true /\ permission_write e = false
                   /\ permission_delete e = false)
                /\ List.length (filter (by_user None) (acl o)) <= 1)).
    - intros o o' C. now apply public_entry_shape_kept.
    - split.
      + intros e Hin U. now destruct (find_by_user_none _ _ N e Hin).
      + destruct (filter (by_user None) (acl object)) as [|e rest] eqn:F;
          [simpl; lia|].
        assert (Hin : In e (filter (by_user None) (acl object)))
          by (rewrite F; now left).
        apply filter_In in Hin. destruct Hin as [Hin Hu].
        unfold by_user in Hu. apply actor_eqb_eq in Hu.
        now destruct (find_by_user_none _ _ N e Hin). }
  destruct K as [F L]. split; [exact F|]. split; [exact L|].
  set (o := run cs object) in *.
  unfold ace_is_public, acl_get.
  rewrite (filter_ext _ _ (matches_two (by_user None)
                             (by_permission_read true))), filter_conj.
  destruct (filter (by_user None) (acl o)) as [|e [|e' rest]] eqn:G;
    [| |simpl in L; lia].
  - simpl. split; [|now right]. split; [discriminate|].
    intros [e [Hin U]].
    assert (Hf : In e (filter (by_user None) (acl o))).
    { apply filter_In. split; [exact Hin|].
      unfold by_user. now apply actor_eqb_eq. }
    rewrite G in Hf. contradiction.
  - assert (He : In e (filter (by_user None) (acl o)))
      by (rewrite G; now left).
    apply filter_In in He. destruct He as [Hin Hu].
    unfold by_user in Hu. apply actor_eqb_eq in Hu.
    destruct (F e Hin Hu) as [R _].
    simpl. unfold by_permission_read. rewrite R. simpl.
    split; [|now left]. split; [|reflexivity].
    intros _. now exists e.
Qed.

Lemma evaluator_public_entry_witness :
  Spec.find shared_sketch None = None
  /\ List.length
       (filter (by_user None)
          (acl (run [MakePublic (Some 2); MakePublic (Some 1);
                     MakePrivate (Some 3); MakePublic (Some 2)]
                    shared_sketch))) <= 1.
Proof.
  split; [reflexivity|].
  destruct (evaluator_public_entry shared_sketch
              [MakePublic (Some 2); MakePublic (Some 1);
               MakePrivate (Some 3); MakePublic (Some 2)] eq_refl)
    as [_ [P _]].
  exact P.
Defined.
